(** * Email gateway ([src/app.py]): request validation and error mapping

    A shallow embedding of the two FastAPI handlers of [app.py]
    ([send_email] behind [POST /send-email], [test_aws] behind
    [GET /test-aws]) and of the helper [validate_email_domain].

    The handlers talk to four collaborators: the process environment
    ([os.getenv]), the DNS resolver ([dns.resolver.resolve]), the SES client
    ([ses_client.send_email]) and [requests.get].  Each of them is a field of
    a [World] record; a handler is a computation in a small monad that reads
    the world, appends every collaborator call to an event log, and ends
    by returning a value, by raising an [HTTPException], or with another
    exception that no clause of the handler caught. *)

From Stdlib Require Import ZArith NArith Ascii String.
From stdpp Require Import base list gmap.

Local Open Scope list_scope.

(** ** Python strings

    A Python [str] is a sequence of Unicode code points; [pystr] keeps them
    as numbers so that slicing and stripping count characters the way Python
    does.  [lit] reads a literal of the source (all of them are ASCII). *)

Abbreviation pystr := (list N).

Fixpoint lit (s : string) : pystr :=
  match s with
  | EmptyString => []
  | String a s' => N_of_ascii a :: lit s'
  end.

Arguments lit : simpl never.

(** [str.isspace] on one character: the code points CPython classifies as
    whitespace (bidirectional type WS, B or S, or category Zs). *)
Definition isspace (c : N) : bool :=
  ((9 <=? c) && (c <=? 13)          (* \t \n \v \f \r *)
   || (28 <=? c) && (c <=? 32)      (* FS GS RS US and the space *)
   || (c =? 133) || (c =? 160)      (* NEL, no-break space *)
   || (c =? 5760)                   (* U+1680 *)
   || (8192 <=? c) && (c <=? 8202)  (* U+2000 .. U+200A *)
   || (c =? 8232) || (c =? 8233)    (* U+2028, U+2029 *)
   || (c =? 8239) || (c =? 8287)    (* U+202F, U+205F *)
   || (c =? 12288))%N.              (* U+3000 *)

(** [s.lstrip()], [s.rstrip()] and [s.strip()] without argument. *)
Fixpoint lstrip (s : pystr) : pystr :=
  match s with
  | [] => []
  | c :: s' => if isspace c then lstrip s' else s
  end.

Definition rstrip (s : pystr) : pystr := reverse (lstrip (reverse s)).

Definition strip (s : pystr) : pystr := rstrip (lstrip s).

(** Truth value of a string: [not s] holds exactly for the empty string. *)
Definition py_not (s : pystr) : bool :=
  match s with [] => true | _ :: _ => false end.

(** Truth value of an optional string ([None] is falsy as well). *)
Definition py_not_opt (o : option pystr) : bool :=
  match o with None => true | Some s => py_not s end.

(** [s.split(sep)] for a one-character separator: the pieces between the
    occurrences of [sep], in order; never an empty list. *)
Fixpoint split (sep : N) (s : pystr) : list pystr :=
  match s with
  | [] => [[]]
  | c :: s' =>
      if (c =? sep)%N then [] :: split sep s'
      else match split sep s' with
           | [] => [[c]]
           | w :: ws => (c :: w) :: ws
           end
  end.

(** [l[-1]] on a list of strings. [split] never returns an empty list, so
    the [IndexError] of the empty case cannot occur where it is used. *)
Definition index_last (l : list pystr) : pystr := List.last l [].

(** [s[:n]]. *)
Definition slice_to (n : nat) (s : pystr) : pystr := take n s.

Definition at_sign : N := 64%N.

(** ** Python values

    The dictionaries and lists the handlers build (keyword arguments of the
    provider call, JSON bodies of the responses).  A dictionary literal is
    kept as the list of its items in source order. *)

#[local] Set Warnings "-register-all".

Inductive pyval : Type :=
| PNone
| PStr (s : pystr)
| PInt (z : Z)
| PList (l : list pyval)
| PDict (items : list (pystr * pyval)).

Definition of_opt_str (o : option pystr) : pyval :=
  match o with None => PNone | Some s => PStr s end.

(** The value stored under key [k] in the items of a dictionary. *)
Fixpoint items_get (k : pystr) (items : list (pystr * pyval)) : option pyval :=
  match items with
  | [] => None
  | (k', v) :: rest => if bool_decide (k' = k) then Some v else items_get k rest
  end.

(** ** Collaborators

    What a library call can raise: an exception object, kept as the classes
    it is an instance of (the classes of [type(e).__mro__] below [Exception],
    by qualified name, its own class first) and the text [str(e)] gives for
    it.  Every exception of the model is an instance of [Exception]. *)

Record error : Type := Error { err_mro : list pystr; err_str : pystr }.

(** [isinstance(e, C)]: [C] is one of the classes of [e]. *)
Definition isinstance (e : error) (C : pystr) : bool :=
  bool_decide (C ∈ err_mro e).

(** The three classes [app.py] imports from [botocore.exceptions]. *)
Definition NoCredentialsError : pystr :=
  lit "botocore.exceptions.NoCredentialsError".

Definition PartialCredentialsError : pystr :=
  lit "botocore.exceptions.PartialCredentialsError".

Definition EndpointConnectionError : pystr :=
  lit "botocore.exceptions.EndpointConnectionError".

(** Outcome of a library call: it returns or it raises. *)
Inductive outcome (A : Type) : Type :=
| Returns (a : A)
| Raises (e : error).
Arguments Returns {A} a.
Arguments Raises {A} e.

(** The client [boto3.client(service, region_name=...)] builds. *)
Record Client : Type := { service_name : pystr; region_name : pystr }.

(** The [requests.Response] fields the source reads. *)
Record Response : Type := { resp_status_code : Z; resp_text : pystr }.

(** The world a handler runs in: the process environment as it is when the
    handler runs, and the answer of each collaborator to each call.
    [client_exceptions c name] is the attribute access
    [c.exceptions.<name>]: the exception class the client's service model
    defines under that name, or the [AttributeError] the access raises when
    the model defines none (the service model is botocore's data). *)
Record World : Type := {
  environ : gmap (list N) (list N);
  dns_resolver_resolve : pystr -> pystr -> outcome pyval;
  client_send_email : Client -> list (pystr * pyval) -> outcome pyval;
  client_exceptions : Client -> pystr -> outcome pystr;
  requests_get : pystr -> Z -> outcome Response
}.

(** One entry of the log per collaborator call, with its arguments. *)
Inductive event : Type :=
| EvGetenv (key : pystr)
| EvResolve (qname rdtype : pystr)
| EvSendEmail (client : Client) (kwargs : list (pystr * pyval))
| EvGet (url : pystr) (timeout : Z).

(** ** The handler monad *)

Record HTTPException : Type :=
  mkHTTPException { status_code : Z; detail : pystr }.

(** How a handler ends: it returns, it raises an [HTTPException], or
    another exception leaves it unhandled. *)
Inductive result (A : Type) : Type :=
| Ok (a : A)
| Raise (e : HTTPException)
| Escape (e : error).
Arguments Ok {A} a.
Arguments Raise {A} e.
Arguments Escape {A} e.

Definition M (A : Type) : Type := World -> list event -> list event * result A.

Definition ret {A} (a : A) : M A := fun _ log => (log, Ok a).

Definition raise {A} (e : HTTPException) : M A := fun _ log => (log, Raise e).

Definition bind {A B} (m : M A) (k : A -> M B) : M B :=
  fun w log =>
    match m w log with
    | (log', Ok a) => k a w log'
    | (log', Raise e) => (log', Raise e)
    | (log', Escape e) => (log', Escape e)
    end.

Notation "x <- m ;; k" := (bind m (fun x => k))
  (at level 100, m at next level, right associativity).

(** A collaborator call: log it, hand its outcome to the caller (the
    [try] around it decides what a [Raises] becomes). *)
Definition call {A} (ev : event) (f : World -> outcome A) : M (outcome A) :=
  fun w log => (log ++ [ev], Ok (f w)).

(** End with what [f] gives in the world at hand. *)
Definition finish {A} (f : World -> result A) : M A := fun w log => (log, f w).

(** [os.getenv(key)]: a read of the environment, logged; [None] when the
    variable is not set. *)
Definition os_getenv (key : pystr) : M (option pystr) :=
  fun w log => (log ++ [EvGetenv key], Ok (environ w !! key)).

(** [os.getenv(key, default)]. *)
Definition os_getenv_default (key default : pystr) : M pystr :=
  fun w log =>
    (log ++ [EvGetenv key],
     Ok (match environ w !! key with Some v => v | None => default end)).

(** Run a computation from an empty log. *)
Definition run {A} (m : M A) (w : World) : list event * result A := m w [].

(** What FastAPI sends for a handler's result: status 200 with the returned
    value as JSON body; the status and [{"detail": ...}] of the
    [HTTPException] the handler raised; the plain-text 500 of the server for
    an exception that left the handler unhandled. *)
Definition http_status (r : result pyval) : Z :=
  match r with
  | Ok _ => 200%Z
  | Raise e => status_code e
  | Escape _ => 500%Z
  end.

Definition http_body (r : result pyval) : pyval :=
  match r with
  | Ok v => v
  | Raise e => PDict [(lit "detail", PStr (detail e))]
  | Escape _ => PStr (lit "Internal Server Error")
  end.

(** ** Module level of [app.py]

    [load_dotenv()] has run when the two globals are computed: the world of
    [module_init] is the process as it is at import time. *)

Record Globals : Type := { region : pystr; ses_client : Client }.

(** [boto3.client(service, region_name=...)] for a region name the library
    accepts.  For a malformed name (the empty string, a name with a blank)
    the real constructor raises and the import of [app.py] fails: no process
    exists then, and the model speaks of the processes that start. *)
Definition boto3_client (service region_name : pystr) : Client :=
  {| service_name := service; region_name := region_name |}.

Definition module_init : M Globals :=
  region <- os_getenv_default (lit "AWS_REGION") (lit "us-east-1") ;;
  ret {| region := region; ses_client := boto3_client (lit "ses") region |}.

Record EmailRequest : Type := {
  receiver_email : pystr;
  subject : pystr;
  body_text : pystr
}.

(** ** [validate_email_domain] *)

Definition domain_of (email : pystr) : pystr :=
  index_last (split at_sign email).

Definition no_mx_detail (domain : pystr) : pystr :=
  lit "Domain '" ++ domain ++ lit "' has no MX records or cannot receive email".

Definition validate_email_domain (email : pystr) : M bool :=
  let domain := domain_of email in
  r <- call (EvResolve domain (lit "MX"))
            (fun w => dns_resolver_resolve w domain (lit "MX")) ;;
  match r with
  | Returns _ => ret true
  | Raises _ => raise (mkHTTPException 400 (no_mx_detail domain))
  end.

(** ** [send_email] *)

(** The keyword arguments of [ses_client.send_email(...)]. *)
Definition send_email_kwargs (source_email : option pystr) (req : EmailRequest)
  : list (pystr * pyval) :=
  [ (lit "Source", of_opt_str source_email);
    (lit "Destination",
      PDict [(lit "ToAddresses", PList [PStr (receiver_email req)])]);
    (lit "Message",
      PDict [ (lit "Subject", PDict [(lit "Data", PStr (subject req))]);
              (lit "Body",
                PDict [(lit "Text", PDict [(lit "Data", PStr (body_text req))])]) ]) ].

(** The expression after [except]: an attribute of the client's exception
    namespace, looked up when the clause is tried, or a class the module has
    imported. *)
Inductive clause_head : Type :=
| ClientException (name : pystr)
| Imported (cls : pystr).

(** The [except] clauses that name a class, in source order. *)
Definition except_clauses : list (clause_head * HTTPException) :=
  [ (ClientException (lit "MessageRejected"),
      mkHTTPException 400
        (lit "Email rejected by AWS SES (unverified sender/recipient or invalid content)"));
    (ClientException (lit "ThrottlingException"),
      mkHTTPException 429 (lit "AWS SES rate limit exceeded. Please try again later."));
    (Imported NoCredentialsError, mkHTTPException 401 (lit "AWS credentials not found"));
    (Imported PartialCredentialsError,
      mkHTTPException 401 (lit "Incomplete AWS credentials"));
    (Imported EndpointConnectionError,
      mkHTTPException 503
        (lit "Unable to reach AWS SES endpoint (check region or network)")) ].

(** The last clause, [except Exception as e]. *)
Definition except_Exception (e : error) : HTTPException :=
  mkHTTPException 500 (lit "Unexpected error: " ++ err_str e).

(** Evaluating the expression of a clause, [exceptions] being the namespace
    of the client. *)
Definition eval_head (exceptions : pystr -> outcome pystr) (head : clause_head)
  : outcome pystr :=
  match head with
  | ClientException name => exceptions name
  | Imported cls => Returns cls
  end.

(** Python tries the clauses from the top.  It evaluates the expression of a
    clause when it comes to it: if that raises, the new exception leaves the
    [try] statement and no further clause is tried; otherwise the clause
    handles [e] when [e] is an instance of the class, and the next clause is
    tried when it is not.  [last] is what the closing [except Exception]
    raises. *)
Fixpoint try_clauses {A} (exceptions : pystr -> outcome pystr) (e : error)
    (clauses : list (clause_head * HTTPException)) (last : HTTPException)
  : result A :=
  match clauses with
  | [] => Raise last
  | (head, h) :: rest =>
      match eval_head exceptions head with
      | Raises a => Escape a
      | Returns C =>
          if isinstance e C then Raise h
          else try_clauses exceptions e rest last
      end
  end.

Definition on_send_error (exceptions : pystr -> outcome pystr) (e : error)
  : result pyval :=
  try_clauses exceptions e except_clauses (except_Exception e).

Definition sent_message (req : EmailRequest) : pyval :=
  PDict [(lit "message",
          PStr (lit "Email successfully sent to " ++ receiver_email req))].

Definition send_email (g : Globals) (req : EmailRequest) : M pyval :=
  source_email <- os_getenv (lit "SOURCE_EMAIL") ;;
  if py_not_opt source_email then
    raise (mkHTTPException 500 (lit "Source email not configured in environment"))
  else if py_not (strip (subject req)) || py_not (strip (body_text req)) then
    raise (mkHTTPException 400 (lit "Subject and body cannot be empty"))
  else
    _ <- validate_email_domain (receiver_email req) ;;
    let kwargs := send_email_kwargs source_email req in
    r <- call (EvSendEmail (ses_client g) kwargs)
              (fun w => client_send_email w (ses_client g) kwargs) ;;
    match r with
    | Returns _ => ret (sent_message req)
    | Raises e => finish (fun w => on_send_error (client_exceptions w (ses_client g)) e)
    end.

(** ** [test_aws] *)

Definition endpoint_url (region : pystr) : pystr :=
  lit "https://email." ++ region ++ lit ".amazonaws.com".

Definition test_aws (g : Globals) : M pyval :=
  let url := endpoint_url (region g) in
  r <- call (EvGet url 5) (fun w => requests_get w url 5) ;;
  match r with
  | Returns r =>
      ret (PDict [ (lit "status", PInt (resp_status_code r));
                   (lit "text", PStr (slice_to 100 (resp_text r))) ])
  | Raises e =>
      raise (mkHTTPException 500 (lit "Network test failed: " ++ err_str e))
  end.

(** ** Observing a log *)

Definition is_getenv (ev : event) : bool :=
  match ev with EvGetenv _ => true | _ => false end.

Definition is_dns_lookup (ev : event) : bool :=
  match ev with EvResolve _ _ => true | _ => false end.

Definition is_provider_call (ev : event) : bool :=
  match ev with EvSendEmail _ _ => true | _ => false end.

(** How many entries of a log satisfy [p]. *)
Definition count (p : event -> bool) (log : list event) : nat :=
  length (List.filter p log).

(** A string is blank when it is empty or made of whitespace only. *)
Definition blank (s : pystr) : Prop := Forall (fun c => isspace c = true) s.

(** [SOURCE_EMAIL] is configured: set, and not to the empty string. *)
Definition source_configured (w : World) (src : pystr) : Prop :=
  environ w !! lit "SOURCE_EMAIL" = Some src /\ src <> [].

(** The log and the result of a handler run in world [w]. *)
Definition events {A} (m : M A) (w : World) : list event := (run m w).1.

Definition answer {A} (m : M A) (w : World) : result A := (run m w).2.

(** The MX lookup for the receiver's domain finds records. *)
Definition domain_resolves (w : World) (req : EmailRequest) : Prop :=
  exists a,
    dns_resolver_resolve w (domain_of (receiver_email req)) (lit "MX") = Returns a.

(** A request that passes the three checks of [send_email] in world [w],
    [src] being the configured source address. *)
Definition valid_request (w : World) (req : EmailRequest) (src : pystr) : Prop :=
  source_configured w src
  /\ ~ blank (subject req) /\ ~ blank (body_text req)
  /\ domain_resolves w req.

(** The region a process started in environment [env] works with. *)
Definition region_of_env (env : gmap (list N) (list N)) : pystr :=
  default (lit "us-east-1") (env !! lit "AWS_REGION").

(** ** Sample worlds, for running the handlers on concrete inputs *)

(** The exception namespace of the sample client: of the two names
    [send_email] looks up, it defines [MessageRejected] and not
    [ThrottlingException], as the service model of SES does. *)
Definition sample_exceptions (name : pystr) : outcome pystr :=
  if bool_decide (name = lit "MessageRejected")
  then Returns (lit "botocore.errorfactory.MessageRejected")
  else Raises (Error [lit "AttributeError"]
                     (lit "SESExceptions object has no attribute " ++ name)).

Definition sample_world (env : gmap (list N) (list N))
    (mx : outcome pyval) (sent : outcome pyval) (got : outcome Response) : World :=
  {| environ := env;
     dns_resolver_resolve := fun _ _ => mx;
     client_send_email := fun _ _ => sent;
     client_exceptions := fun _ => sample_exceptions;
     requests_get := fun _ _ => got |}.

Definition env_configured : gmap (list N) (list N) :=
  {[ lit "SOURCE_EMAIL" := lit "noreply@example.com" ]}.

Definition env_eu : gmap (list N) (list N) :=
  {[ lit "AWS_REGION" := lit "eu-west-1" ]}.

Definition sample_request : EmailRequest :=
  {| receiver_email := lit "ann@example.org";
     subject := lit "Hello";
     body_text := lit "How are you?" |}.

Definition blank_request : EmailRequest :=
  {| receiver_email := lit "ann@example.org";
     subject := lit "   ";
     body_text := lit "How are you?" |}.

Definition sample_globals : Globals :=
  {| region := lit "us-east-1";
     ses_client := boto3_client (lit "ses") (lit "us-east-1") |}.

Definition mx_found : outcome pyval := Returns (PList [PStr (lit "10 mail.example.org.")]).

Definition mx_missing : outcome pyval :=
  Raises (Error [lit "dns.resolver.NXDOMAIN"; lit "dns.exception.DNSException"]
                (lit "The DNS query name does not exist: example.org.")).

Definition send_accepted : outcome pyval :=
  Returns (PDict [(lit "MessageId", PStr (lit "0100"))]).

Definition page_found : outcome Response :=
  Returns {| resp_status_code := 404; resp_text := lit "<UnknownOperationException/>" |}.

Definition rejected : error :=
  Error [lit "botocore.errorfactory.MessageRejected";
         lit "botocore.exceptions.ClientError"]
        (lit "An error occurred (MessageRejected): Email address is not verified.").

Definition no_credentials : error :=
  Error [NoCredentialsError; lit "botocore.exceptions.BotoCoreError"]
        (lit "Unable to locate credentials").

Definition broken_pipe : error :=
  Error [lit "BrokenPipeError"; lit "ConnectionError"; lit "OSError"]
        (lit "[Errno 32] Broken pipe").

(** [sep.join(pieces)] for a one-character separator: what [split] undoes. *)
Fixpoint join (sep : N) (pieces : list pystr) : pystr :=
  match pieces with
  | [] => []
  | p :: rest =>
      match rest with
      | [] => p
      | _ :: _ => p ++ sep :: join sep rest
      end
  end.

(** * Facts about the string operations *)

Section Strings.

Implicit Types (s p d : pystr) (c sep : N).

Lemma split_not_nil sep s : split sep s <> [].
Proof.
  destruct s as [|c s]; simpl; [discriminate|].
  destruct (c =? sep)%N; [discriminate|].
  destruct (split sep s); discriminate.
Qed.

Lemma split_without_sep sep s : sep ∉ s -> split sep s = [s].
Proof.
  induction s as [|c s IH]; intros Hs; [reflexivity|].
  apply not_elem_of_cons in Hs as [Hc Hs]. simpl.
  destruct (N.eqb_spec c sep) as [->|_]; [congruence|].
  now rewrite (IH Hs).
Qed.

Lemma split_with_sep_length sep p d : 2 <= length (split sep (p ++ sep :: d)).
Proof.
  induction p as [|c p IH]; simpl.
  - rewrite N.eqb_refl. simpl.
    pose proof (split_not_nil sep d). destruct (split sep d); simpl; [congruence|lia].
  - destruct (c =? sep)%N; simpl; [lia|].
    destruct (split sep (p ++ sep :: d)) as [|w ws]; simpl in *; lia.
Qed.

Lemma last_cons_nonempty {A} (x dflt : A) (l : list A) :
  l <> [] -> List.last (x :: l) dflt = List.last l dflt.
Proof. destruct l; [congruence|reflexivity]. Qed.

Lemma index_last_split_app sep p d :
  index_last (split sep (p ++ sep :: d)) = index_last (split sep d).
Proof.
  unfold index_last. induction p as [|c p IH]; simpl.
  - rewrite N.eqb_refl. apply last_cons_nonempty, split_not_nil.
  - destruct (c =? sep)%N.
    + rewrite last_cons_nonempty by apply split_not_nil. exact IH.
    + pose proof (split_with_sep_length sep p d) as Hlen.
      destruct (split sep (p ++ sep :: d)) as [|w [|w' ws]];
        simpl in Hlen; try lia.
      exact IH.
Qed.

(** Every string either has no [sep], or splits at its last [sep]. *)
Lemma last_occurrence sep s :
  sep ∉ s \/ exists p d, s = p ++ sep :: d /\ sep ∉ d.
Proof.
  induction s as [|c s IH]; [left; apply not_elem_of_nil|].
  destruct IH as [Hno | (p & d & -> & Hd)].
  - destruct (N.eq_dec c sep) as [->|Hne].
    + right. exists [], s. split; [reflexivity|assumption].
    + left. apply not_elem_of_cons; split; [congruence|assumption].
  - right. exists (c :: p), d. split; [reflexivity|assumption].
Qed.

Lemma domain_of_no_at s : at_sign ∉ s -> domain_of s = s.
Proof. intros H. unfold domain_of. now rewrite split_without_sep. Qed.

Lemma domain_of_after_last p d :
  at_sign ∉ d -> domain_of (p ++ at_sign :: d) = d.
Proof.
  intros H. unfold domain_of.
  rewrite index_last_split_app. now rewrite split_without_sep.
Qed.

Lemma lstrip_nil s : lstrip s = [] <-> blank s.
Proof.
  unfold blank. induction s as [|c s IH]; simpl.
  - split; [constructor|reflexivity].
  - destruct (isspace c) eqn:Hc.
    + rewrite IH. split; [now constructor|now inversion 1].
    + split; [discriminate|]. inversion 1; congruence.
Qed.

Lemma lstrip_head s c t : lstrip s = c :: t -> isspace c = false.
Proof.
  induction s as [|c' s IH]; simpl; [discriminate|].
  destruct (isspace c') eqn:Hc; [exact IH|]. congruence.
Qed.

Lemma lstrip_blank_or_head s :
  blank (lstrip s) -> lstrip s = [].
Proof.
  destruct (lstrip s) as [|c t] eqn:E; [reflexivity|].
  apply lstrip_head in E. inversion 1; congruence.
Qed.

(** [not s.strip()] is true exactly for the blank strings. *)
Lemma strip_blank s : py_not (strip s) = true <-> blank s.
Proof.
  assert (Hnil : forall t : pystr, py_not t = true <-> t = []).
  { intros [|? ?]; simpl; split; congruence. }
  rewrite Hnil. unfold strip, rstrip. split.
  - intros H. apply (f_equal reverse) in H.
    rewrite reverse_involutive, reverse_nil in H.
    apply lstrip_nil in H. unfold blank in H. rewrite Forall_reverse in H.
    apply lstrip_blank_or_head in H. now apply lstrip_nil.
  - intros H. apply lstrip_nil in H. now rewrite H.
Qed.

Lemma strip_not_blank s : py_not (strip s) = false <-> ~ blank s.
Proof.
  rewrite <- strip_blank. destruct (py_not (strip s)); split; congruence.
Qed.

Lemma py_not_opt_false o :
  py_not_opt o = false <-> exists src, o = Some src /\ src <> [].
Proof.
  destruct o as [[|c s]|]; simpl; split; try congruence.
  - intros (src & [= <-] & H). congruence.
  - intros _. eexists; split; [reflexivity|discriminate].
  - intros (src & [=] & _).
Qed.

(** The operations on the inputs Python's documentation uses. *)
Example split_pieces :
  split at_sign (lit "@a@@b@") = [lit ""; lit "a"; lit ""; lit "b"; lit ""].
Proof. reflexivity. Qed.

Example domain_of_two_ats : domain_of (lit "a@b@example.org") = lit "example.org".
Proof. reflexivity. Qed.

Example strip_both_sides : strip (lit "  a b ") = lit "a b".
Proof. reflexivity. Qed.

Example strip_no_break_space : strip [160; 9; 12288]%N = [].
Proof. reflexivity. Qed.

End Strings.

(** * The handlers, case by case *)

Section Handlers.

Variables (g : Globals) (req : EmailRequest) (w : World).

Let getenv_ev : event := EvGetenv (lit "SOURCE_EMAIL").
Let resolve_ev : event := EvResolve (domain_of (receiver_email req)) (lit "MX").
Let send_ev (src : pystr) : event :=
  EvSendEmail (ses_client g) (send_email_kwargs (Some src) req).

Lemma run_validate_email_domain (email : pystr) :
  run (validate_email_domain email) w =
  ([EvResolve (domain_of email) (lit "MX")],
   match dns_resolver_resolve w (domain_of email) (lit "MX") with
   | Returns _ => Ok true
   | Raises _ => Raise (mkHTTPException 400 (no_mx_detail (domain_of email)))
   end).
Proof.
  unfold run, validate_email_domain, bind, call. simpl.
  now destruct (dns_resolver_resolve w _ _).
Qed.

Lemma run_unconfigured :
  py_not_opt (environ w !! lit "SOURCE_EMAIL") = true ->
  run (send_email g req) w =
  ([getenv_ev],
   Raise (mkHTTPException 500 (lit "Source email not configured in environment"))).
Proof.
  intros H. unfold run, send_email, bind, os_getenv. cbn [app].
  now rewrite H.
Qed.

Lemma run_blank (src : pystr) :
  source_configured w src ->
  blank (subject req) \/ blank (body_text req) ->
  run (send_email g req) w =
  ([getenv_ev], Raise (mkHTTPException 400 (lit "Subject and body cannot be empty"))).
Proof.
  intros [Hsrc Hne] Hblank. unfold run, send_email, bind, os_getenv. cbn [app].
  rewrite Hsrc. destruct src as [|c src]; [congruence|]. cbn [py_not_opt py_not].
  assert (py_not (strip (subject req)) || py_not (strip (body_text req)) = true) as ->.
  { apply orb_true_iff. now rewrite !strip_blank. }
  reflexivity.
Qed.

Lemma run_checked (src : pystr) :
  source_configured w src ->
  ~ blank (subject req) -> ~ blank (body_text req) ->
  run (send_email g req) w =
  match dns_resolver_resolve w (domain_of (receiver_email req)) (lit "MX") with
  | Raises _ =>
      ([getenv_ev; resolve_ev],
       Raise (mkHTTPException 400 (no_mx_detail (domain_of (receiver_email req)))))
  | Returns _ =>
      ([getenv_ev; resolve_ev; send_ev src],
       match client_send_email w (ses_client g) (send_email_kwargs (Some src) req) with
       | Returns _ => Ok (sent_message req)
       | Raises e => on_send_error (client_exceptions w (ses_client g)) e
       end)
  end.
Proof.
  intros [Hsrc Hne] Hs Hb. apply strip_not_blank in Hs, Hb.
  unfold run, send_email, bind, os_getenv. cbn [app].
  rewrite Hsrc. destruct src as [|c src]; [congruence|]. cbn [py_not_opt py_not].
  rewrite Hs, Hb. cbn [orb].
  unfold validate_email_domain, bind, call. cbn [app].
  destruct (dns_resolver_resolve w _ _); [|reflexivity].
  cbn. now destruct (client_send_email w _ _).
Qed.

(** The environment either configures a source address or it does not. *)
Lemma configured_or_not :
  py_not_opt (environ w !! lit "SOURCE_EMAIL") = true
  \/ exists src, source_configured w src.
Proof.
  destruct (py_not_opt (environ w !! lit "SOURCE_EMAIL")) eqn:E; [now left|right].
  apply py_not_opt_false in E as (src & ? & ?). now exists src.
Qed.

Lemma unconfigured_iff :
  py_not_opt (environ w !! lit "SOURCE_EMAIL") = true <->
  environ w !! lit "SOURCE_EMAIL" = None \/ environ w !! lit "SOURCE_EMAIL" = Some [].
Proof.
  destruct (environ w !! lit "SOURCE_EMAIL") as [[|c s]|]; simpl;
    split; try tauto; try congruence; intros [H|H]; congruence.
Qed.

Lemma blank_dec (s : pystr) : blank s \/ ~ blank s.
Proof.
  rewrite <- strip_blank. destruct (py_not (strip s)); [now left|right; congruence].
Qed.

End Handlers.

(** * The claims *)

(** A configured source address excludes the unset and the empty value. *)
Lemma configured_not_unset (w : World) (src : pystr) :
  source_configured w src ->
  ~ (environ w !! lit "SOURCE_EMAIL" = None
     \/ environ w !! lit "SOURCE_EMAIL" = Some []).
Proof. intros [H Hne] [H'|H']; rewrite H in H'; congruence. Qed.

Lemma resolves_or_raises (w : World) (req : EmailRequest) :
  domain_resolves w req
  \/ exists e,
       dns_resolver_resolve w (domain_of (receiver_email req)) (lit "MX") = Raises e.
Proof.
  unfold domain_resolves.
  destruct (dns_resolver_resolve w _ _) as [a|e]; [left|right]; eauto.
Qed.

Ltac run_case H :=
  unfold events, answer; rewrite H; cbn [fst snd http_status status_code].

(** C1: [send_email] checks its preconditions in a fixed order and stops at
    the first that fails: an unset or empty [SOURCE_EMAIL] gives 500, then a
    blank subject or body gives 400, both before any DNS lookup or provider
    call; then the MX lookup for the receiver's domain runs; the provider's
    send operation is invoked exactly when all three checks pass. *)
Theorem send_email_checks_in_order (g : Globals) (req : EmailRequest) (w : World) :
  let log := events (send_email g req) w in
  let status := http_status (answer (send_email g req) w) in
  let unset :=
    environ w !! lit "SOURCE_EMAIL" = None
    \/ environ w !! lit "SOURCE_EMAIL" = Some [] in
  let blank_input := blank (subject req) \/ blank (body_text req) in
  (unset ->
     status = 500%Z
     /\ count is_dns_lookup log = 0 /\ count is_provider_call log = 0)
  /\ (~ unset -> blank_input ->
     status = 400%Z
     /\ count is_dns_lookup log = 0 /\ count is_provider_call log = 0)
  /\ (~ unset -> ~ blank_input ->
     [EvGetenv (lit "SOURCE_EMAIL");
      EvResolve (domain_of (receiver_email req)) (lit "MX")] `prefix_of` log
     /\ count is_dns_lookup log = 1
     /\ (~ domain_resolves w req -> status = 400%Z /\ count is_provider_call log = 0)
     /\ (domain_resolves w req -> count is_provider_call log = 1))
  /\ (0 < count is_provider_call log ->
     ~ unset /\ ~ blank_input /\ domain_resolves w req).
Proof.
  cbv zeta.
  destruct (configured_or_not w) as [Hun | [src Hsrc]].
  - pose proof (proj1 (unconfigured_iff w) Hun) as Hunset.
    run_case (run_unconfigured g req w Hun). unfold count; simpl.
    repeat split; try tauto; try lia.
  - pose proof (configured_not_unset w src Hsrc) as Hset.
    destruct (blank_dec (subject req)) as [Hs|Hs];
      [|destruct (blank_dec (body_text req)) as [Hb|Hb]].
    1,2: run_case (run_blank g req w src Hsrc ltac:(tauto)); unfold count; simpl;
      repeat split; try tauto; try lia.
    assert (~ (blank (subject req) \/ blank (body_text req))) as Hnb by tauto.
    destruct (resolves_or_raises w req) as [[a Ha]|[e He]].
    + assert (domain_resolves w req) as Hres by (now exists a).
      run_case (run_checked g req w src Hsrc Hs Hb). rewrite Ha.
      unfold count; simpl.
      repeat split; try tauto; try lia.
      now exists [EvSendEmail (ses_client g) (send_email_kwargs (Some src) req)].
    + assert (~ domain_resolves w req) as Hres.
      { intros [a Ha]. congruence. }
      run_case (run_checked g req w src Hsrc Hs Hb). rewrite He.
      unfold count; simpl.
      repeat split; try tauto; try lia.
      now exists [].
Qed.

Lemma send_email_checks_in_order_witness :
  http_status
    (answer (send_email sample_globals sample_request)
       (sample_world ∅ mx_found send_accepted page_found)) = 500%Z
  /\ count is_dns_lookup
       (events (send_email sample_globals sample_request)
          (sample_world ∅ mx_found send_accepted page_found)) = 0
  /\ count is_provider_call
       (events (send_email sample_globals sample_request)
          (sample_world ∅ mx_found send_accepted page_found)) = 0.
Proof.
  exact (proj1
    (send_email_checks_in_order sample_globals sample_request
       (sample_world ∅ mx_found send_accepted page_found))
    (or_introl eq_refl)).
Defined.

(** ** Requests that pass the three checks *)

Lemma run_valid (g : Globals) (req : EmailRequest) (w : World) (src : pystr) :
  valid_request w req src ->
  run (send_email g req) w =
  ([EvGetenv (lit "SOURCE_EMAIL");
    EvResolve (domain_of (receiver_email req)) (lit "MX");
    EvSendEmail (ses_client g) (send_email_kwargs (Some src) req)],
   match client_send_email w (ses_client g) (send_email_kwargs (Some src) req) with
   | Returns _ => Ok (sent_message req)
   | Raises e => on_send_error (client_exceptions w (ses_client g)) e
   end).
Proof.
  intros (Hsrc & Hs & Hb & a & Ha).
  rewrite (run_checked g req w src Hsrc Hs Hb). now rewrite Ha.
Qed.

Lemma sample_valid (sent : outcome pyval) (got : outcome Response) :
  valid_request (sample_world env_configured mx_found sent got) sample_request
    (lit "noreply@example.com").
Proof.
  repeat split.
  - discriminate.
  - apply strip_not_blank. reflexivity.
  - apply strip_not_blank. reflexivity.
  - eexists. reflexivity.
Qed.

(** ** The [except] clauses *)

(** However the clauses are tried, the outcome is the exception of a clause,
    the exception of the closing clause, or an exception raised by the
    expression of a clause. *)
Lemma try_clauses_cases {A} (exceptions : pystr -> outcome pystr) (e : error)
    (clauses : list (clause_head * HTTPException)) (last : HTTPException) :
  (exists a, try_clauses (A := A) exceptions e clauses last = Escape a)
  \/ (exists h, h ∈ clauses.*2
               /\ try_clauses (A := A) exceptions e clauses last = Raise h)
  \/ try_clauses (A := A) exceptions e clauses last = Raise last.
Proof.
  induction clauses as [|[head h] rest IH]; [now right; right|].
  cbn [try_clauses]. destruct (eval_head exceptions head) as [C|a]; [|left; eauto].
  destruct (isinstance e C).
  - right; left. exists h. split; [apply list_elem_of_here|reflexivity].
  - destruct IH as [IH | [(h' & Hin & IH) | IH]]; [now left| |now right; right].
    right; left. exists h'. split; [now apply list_elem_of_further|assumption].
Qed.

Lemma on_send_error_status (exceptions : pystr -> outcome pystr) (e : error) :
  http_status (on_send_error exceptions e) ∈ [400; 429; 401; 503; 500]%Z.
Proof.
  unfold on_send_error.
  destruct (try_clauses_cases (A := pyval) exceptions e except_clauses
              (except_Exception e)) as [[a ->] | [(h & Hin & ->) | ->]];
    cbn [http_status status_code except_Exception].
  - rewrite !elem_of_cons. auto 10.
  - cbn [except_clauses fmap list_fmap snd] in Hin.
    rewrite !elem_of_cons, elem_of_nil in Hin.
    decompose [or] Hin; try contradiction; subst h;
      cbn [status_code]; rewrite !elem_of_cons; auto 10.
  - rewrite !elem_of_cons. auto 10.
Qed.

(** With a client that defines [MessageRejected] and not
    [ThrottlingException], the second clause cannot be tried: what the first
    clause does not handle leaves the [try] with the [AttributeError]. *)
Lemma on_send_error_missing_name (exceptions : pystr -> outcome pystr)
    (e : error) (C : pystr) (a : error) :
  exceptions (lit "MessageRejected") = Returns C ->
  exceptions (lit "ThrottlingException") = Raises a ->
  on_send_error exceptions e =
  if isinstance e C
  then Raise (mkHTTPException 400
                (lit "Email rejected by AWS SES (unverified sender/recipient or invalid content)"))
  else Escape a.
Proof.
  intros HC Ha. unfold on_send_error.
  cbn [try_clauses except_clauses eval_head]. rewrite HC.
  destruct (isinstance e C); [reflexivity|]. now rewrite Ha.
Qed.

(** C2, on the code: with a client whose exception namespace has
    [MessageRejected] and no [ThrottlingException], a provider failure that
    is no [MessageRejected] is not mapped at all: looking up the second
    clause's class raises an [AttributeError], which leaves the handler and
    is answered with the server's 500, whatever the class of the failure
    (throttling, credentials, endpoint).  Only [MessageRejected] gets its
    400.  The send operation has been called once. *)
Theorem send_email_listed_errors_escape
    (g : Globals) (req : EmailRequest) (w : World) (src : pystr)
    (e : error) (C : pystr) (a : error) :
  valid_request w req src ->
  client_send_email w (ses_client g) (send_email_kwargs (Some src) req) = Raises e ->
  client_exceptions w (ses_client g) (lit "MessageRejected") = Returns C ->
  client_exceptions w (ses_client g) (lit "ThrottlingException") = Raises a ->
  (isinstance e C = true ->
     http_status (answer (send_email g req) w) = 400%Z)
  /\ (isinstance e C = false ->
     answer (send_email g req) w = Escape a
     /\ http_status (answer (send_email g req) w) = 500%Z)
  /\ count is_provider_call (events (send_email g req) w) = 1.
Proof.
  intros Hvalid Hsend HC Ha. unfold events, answer.
  rewrite (run_valid g req w src Hvalid), Hsend. cbn [fst snd].
  rewrite (on_send_error_missing_name _ e C a HC Ha).
  split; [|split].
  - now intros ->.
  - intros ->. now split.
  - reflexivity.
Qed.

Lemma send_email_listed_errors_escape_witness :
  answer (send_email sample_globals sample_request)
    (sample_world env_configured mx_found (Raises no_credentials) page_found)
  = Escape (Error [lit "AttributeError"]
              (lit "SESExceptions object has no attribute ThrottlingException"))
  /\ http_status
       (answer (send_email sample_globals sample_request)
          (sample_world env_configured mx_found (Raises no_credentials) page_found))
     = 500%Z.
Proof.
  exact (proj1 (proj2
    (send_email_listed_errors_escape sample_globals sample_request
       (sample_world env_configured mx_found (Raises no_credentials) page_found)
       (lit "noreply@example.com") no_credentials
       (lit "botocore.errorfactory.MessageRejected")
       (Error [lit "AttributeError"]
          (lit "SESExceptions object has no attribute ThrottlingException"))
       (sample_valid (Raises no_credentials) page_found)
       eq_refl eq_refl eq_refl)) eq_refl).
Defined.

(** The one provider failure the clauses do map, on the sample client. *)
Example rejected_is_mapped :
  answer (send_email sample_globals sample_request)
    (sample_world env_configured mx_found (Raises rejected) page_found)
  = Raise (mkHTTPException 400
             (lit "Email rejected by AWS SES (unverified sender/recipient or invalid content)")).
Proof. reflexivity. Qed.

(** C5: for a request that passes the three checks and whose send operation
    succeeds, the answer is status 200 with the message
    "Email successfully sent to " followed by the receiver address. *)
Theorem send_email_success
    (g : Globals) (req : EmailRequest) (w : World) (src : pystr) (sent : pyval) :
  valid_request w req src ->
  client_send_email w (ses_client g) (send_email_kwargs (Some src) req) = Returns sent ->
  answer (send_email g req) w =
    Ok (PDict [(lit "message",
                PStr (lit "Email successfully sent to " ++ receiver_email req))])
  /\ http_status (answer (send_email g req) w) = 200%Z.
Proof.
  intros Hvalid Hsend. unfold answer.
  rewrite (run_valid g req w src Hvalid), Hsend. now split.
Qed.

Lemma send_email_success_witness :
  answer (send_email sample_globals sample_request)
    (sample_world env_configured mx_found send_accepted page_found)
  = Ok (PDict [(lit "message",
                PStr (lit "Email successfully sent to ann@example.org"))]).
Proof.
  exact (proj1
    (send_email_success sample_globals sample_request
       (sample_world env_configured mx_found send_accepted page_found)
       (lit "noreply@example.com") _
       (sample_valid send_accepted page_found) eq_refl)).
Defined.

(** C6, on the code: with a client whose exception namespace has no
    [ThrottlingException], the closing [except Exception] is never reached.
    A provider failure is answered by the [MessageRejected] clause or leaves
    the handler with an exception of a clause's expression; in particular it
    is never answered with "Unexpected error: " followed by [str(e)], and
    the body of the server's 500 is the plain "Internal Server Error". *)
Theorem send_email_catch_all_unreachable
    (g : Globals) (req : EmailRequest) (w : World) (src : pystr)
    (e : error) (a : error) :
  valid_request w req src ->
  client_send_email w (ses_client g) (send_email_kwargs (Some src) req) = Raises e ->
  client_exceptions w (ses_client g) (lit "ThrottlingException") = Raises a ->
  answer (send_email g req) w
    <> Raise (mkHTTPException 500 (lit "Unexpected error: " ++ err_str e))
  /\ (forall h, answer (send_email g req) w = Raise h ->
        h = mkHTTPException 400
              (lit "Email rejected by AWS SES (unverified sender/recipient or invalid content)"))
  /\ (forall C,
        client_exceptions w (ses_client g) (lit "MessageRejected") = Returns C ->
        isinstance e C = false ->
        answer (send_email g req) w = Escape a
        /\ http_status (answer (send_email g req) w) = 500%Z
        /\ http_body (answer (send_email g req) w)
           = PStr (lit "Internal Server Error")).
Proof.
  intros Hvalid Hsend Ha. unfold answer.
  rewrite (run_valid g req w src Hvalid), Hsend. cbn [snd].
  destruct (client_exceptions w (ses_client g) (lit "MessageRejected"))
    as [C|a'] eqn:HC.
  - rewrite (on_send_error_missing_name _ e C a HC Ha).
    destruct (isinstance e C) eqn:Hinst; (split; [discriminate|split]).
    + now intros h [= <-].
    + intros C' [= <-] Hfalse. congruence.
    + discriminate.
    + intros C' _ _. now repeat split.
  - unfold on_send_error. cbn [try_clauses except_clauses eval_head].
    rewrite HC. split; [discriminate|split]; discriminate.
Qed.

Lemma send_email_catch_all_unreachable_witness :
  answer (send_email sample_globals sample_request)
    (sample_world env_configured mx_found (Raises broken_pipe) page_found)
  = Escape (Error [lit "AttributeError"]
              (lit "SESExceptions object has no attribute ThrottlingException"))
  /\ http_status
       (answer (send_email sample_globals sample_request)
          (sample_world env_configured mx_found (Raises broken_pipe) page_found))
     = 500%Z
  /\ http_body
       (answer (send_email sample_globals sample_request)
          (sample_world env_configured mx_found (Raises broken_pipe) page_found))
     = PStr (lit "Internal Server Error").
Proof.
  exact (proj2 (proj2
    (send_email_catch_all_unreachable sample_globals sample_request
       (sample_world env_configured mx_found (Raises broken_pipe) page_found)
       (lit "noreply@example.com") broken_pipe
       (Error [lit "AttributeError"]
          (lit "SESExceptions object has no attribute ThrottlingException"))
       (sample_valid (Raises broken_pipe) page_found) eq_refl eq_refl))
    (lit "botocore.errorfactory.MessageRejected") eq_refl eq_refl).
Defined.

(** A 200 answer of [send_email] comes from a request that passed the three
    checks and a send operation that returned. *)
Lemma status_200_inv (g : Globals) (req : EmailRequest) (w : World) :
  http_status (answer (send_email g req) w) = 200%Z ->
  exists src sent,
    valid_request w req src
    /\ client_send_email w (ses_client g) (send_email_kwargs (Some src) req)
       = Returns sent.
Proof.
  unfold answer. intros H.
  destruct (configured_or_not w) as [Hun | [src Hsrc]].
  { rewrite (run_unconfigured g req w Hun) in H. discriminate. }
  destruct (blank_dec (subject req)) as [Hs|Hs];
    [|destruct (blank_dec (body_text req)) as [Hb|Hb]].
  1,2: rewrite (run_blank g req w src Hsrc ltac:(tauto)) in H; discriminate.
  rewrite (run_checked g req w src Hsrc Hs Hb) in H.
  destruct (dns_resolver_resolve w _ _) as [a|e'] eqn:Hdns; [|discriminate].
  destruct (client_send_email w _ _) as [sent|e] eqn:Hsend.
  - exists src, sent. repeat split; try assumption; try apply Hsrc. now exists a.
  - cbn [snd] in H. pose proof (on_send_error_status
                                  (client_exceptions w (ses_client g)) e) as Hin.
    rewrite H, !elem_of_cons, elem_of_nil in Hin.
    decompose [or] Hin; (discriminate || contradiction).
Qed.

(** C8: a successful [send_email] has called the provider's send operation
    once, with the configured source address, the receiver as the only
    destination (no CC, no BCC), the subject as subject data and the body
    text as the only body part (plain text, no HTML part). *)
Theorem send_email_provider_arguments
    (g : Globals) (req : EmailRequest) (w : World) :
  http_status (answer (send_email g req) w) = 200%Z ->
  exists src,
    source_configured w src
    /\ domain_resolves w req
    /\ List.filter is_provider_call (events (send_email g req) w) =
       [EvSendEmail (ses_client g)
          [ (lit "Source", PStr src);
            (lit "Destination",
              PDict [(lit "ToAddresses", PList [PStr (receiver_email req)])]);
            (lit "Message",
              PDict [ (lit "Subject", PDict [(lit "Data", PStr (subject req))]);
                      (lit "Body",
                        PDict [(lit "Text",
                                PDict [(lit "Data", PStr (body_text req))])]) ]) ]].
Proof.
  intros H. apply status_200_inv in H as (src & sent & Hvalid & Hsend).
  exists src. unfold events. rewrite (run_valid g req w src Hvalid).
  split; [apply Hvalid|]. split; [apply Hvalid|]. reflexivity.
Qed.

Lemma send_email_provider_arguments_witness :
  exists src,
    source_configured
      (sample_world env_configured mx_found send_accepted page_found) src
    /\ domain_resolves
         (sample_world env_configured mx_found send_accepted page_found)
         sample_request
    /\ List.filter is_provider_call
         (events (send_email sample_globals sample_request)
            (sample_world env_configured mx_found send_accepted page_found)) =
       [EvSendEmail (ses_client sample_globals)
          [ (lit "Source", PStr src);
            (lit "Destination",
              PDict [(lit "ToAddresses", PList [PStr (lit "ann@example.org")])]);
            (lit "Message",
              PDict [ (lit "Subject", PDict [(lit "Data", PStr (lit "Hello"))]);
                      (lit "Body",
                        PDict [(lit "Text",
                                PDict [(lit "Data", PStr (lit "How are you?"))])]) ]) ]].
Proof.
  exact (send_email_provider_arguments sample_globals sample_request
           (sample_world env_configured mx_found send_accepted page_found) eq_refl).
Defined.

(** ** The domain check *)

Lemma strip_nil_blank (s : pystr) : strip s = [] <-> blank s.
Proof.
  rewrite <- strip_blank. destruct (strip s); simpl; split; congruence.
Qed.

(** Where [domain_of] cuts: after the last [@], or nowhere when there is
    none. *)
Lemma domain_of_cut (email : pystr) :
  ((exists p, email = p ++ at_sign :: domain_of email)
   \/ ((at_sign ∉ email) /\ domain_of email = email))
  /\ at_sign ∉ domain_of email.
Proof.
  destruct (last_occurrence at_sign email) as [Hno | (p & d & -> & Hd)].
  - rewrite (domain_of_no_at email Hno). split; [right|]; auto.
  - rewrite (domain_of_after_last p d Hd). split; [left; now exists p|assumption].
Qed.

(** C3: [validate_email_domain] takes the part of the address after its last
    [@] as the domain and looks up its MX records, once; it returns [True]
    when the lookup returns, and whatever the lookup raises it fails with
    status 400 and a detail that quotes the domain. *)
Theorem validate_email_domain_spec (email : pystr) (w : World) :
  let domain := domain_of email in
  ((exists p, email = p ++ at_sign :: domain)
   \/ ((at_sign ∉ email) /\ domain = email))
  /\ (at_sign ∉ domain)
  /\ events (validate_email_domain email) w = [EvResolve domain (lit "MX")]
  /\ (forall a, dns_resolver_resolve w domain (lit "MX") = Returns a ->
        answer (validate_email_domain email) w = Ok true)
  /\ (forall e, dns_resolver_resolve w domain (lit "MX") = Raises e ->
        answer (validate_email_domain email) w =
          Raise (mkHTTPException 400
                   (lit "Domain '" ++ domain
                    ++ lit "' has no MX records or cannot receive email"))).
Proof.
  cbv zeta. destruct (domain_of_cut email) as [Hcut Hno].
  unfold events, answer. rewrite run_validate_email_domain. cbn [fst snd].
  repeat split; try assumption; intros x Hx; now rewrite Hx.
Qed.

(** ** Blank subject or body *)

(** C4, as the code has it: while [SOURCE_EMAIL] is configured, a request
    whose subject or body text strips to the empty string is answered with
    status 400, and neither the DNS nor the provider is asked: the receiver
    address plays no part. *)
Theorem send_email_blank_input
    (g : Globals) (req : EmailRequest) (w : World) (src : pystr) :
  source_configured w src ->
  strip (subject req) = [] \/ strip (body_text req) = [] ->
  answer (send_email g req) w =
    Raise (mkHTTPException 400 (lit "Subject and body cannot be empty"))
  /\ http_status (answer (send_email g req) w) = 400%Z
  /\ count is_dns_lookup (events (send_email g req) w) = 0
  /\ count is_provider_call (events (send_email g req) w) = 0.
Proof.
  intros Hsrc Hblank. rewrite !strip_nil_blank in Hblank.
  unfold events, answer. rewrite (run_blank g req w src Hsrc Hblank).
  repeat split.
Qed.

Lemma send_email_blank_input_witness :
  http_status
    (answer (send_email sample_globals blank_request)
       (sample_world env_configured mx_missing send_accepted page_found))
  = 400%Z.
Proof.
  refine (proj1 (proj2
    (send_email_blank_input sample_globals blank_request
       (sample_world env_configured mx_missing send_accepted page_found)
       (lit "noreply@example.com") _ _))).
  - split; [reflexivity|discriminate].
  - left. reflexivity.
Defined.

(** C4, as the claim has it, fails where no source address is configured:
    the request with a blank subject is answered with 500 there. *)
Lemma blank_subject_unconfigured :
  strip (subject blank_request) = []
  /\ environ (sample_world ∅ mx_found send_accepted page_found)
       !! lit "SOURCE_EMAIL" = None
  /\ http_status
       (answer (send_email sample_globals blank_request)
          (sample_world ∅ mx_found send_accepted page_found))
     = 500%Z.
Proof. repeat split. Qed.

(** ** The connectivity probe *)

Lemma run_test_aws (g : Globals) (w : World) :
  run (test_aws g) w =
  ([EvGet (endpoint_url (region g)) 5],
   match requests_get w (endpoint_url (region g)) 5 with
   | Returns r =>
       Ok (PDict [ (lit "status", PInt (resp_status_code r));
                   (lit "text", PStr (take 100 (resp_text r))) ])
   | Raises e =>
       Raise (mkHTTPException 500 (lit "Network test failed: " ++ err_str e))
   end).
Proof.
  unfold run, test_aws, bind, call. cbn [app].
  now destruct (requests_get w _ 5).
Qed.

(** C7: [test_aws] makes one HTTP GET, with a timeout of 5 seconds, to
    "https://email.<region>.amazonaws.com" for the configured region.  When
    the GET returns, the answer is 200 with the probed status code and the
    first 100 characters of the body; when it raises, the answer is 500 with
    the detail "Network test failed: " followed by [str(e)].  There is no
    third way out. *)
Theorem test_aws_probe (g : Globals) (w : World) :
  let url := lit "https://email." ++ region g ++ lit ".amazonaws.com" in
  events (test_aws g) w = [EvGet url 5]
  /\ (forall r, requests_get w url 5 = Returns r ->
        answer (test_aws g) w =
          Ok (PDict [ (lit "status", PInt (resp_status_code r));
                      (lit "text", PStr (take 100 (resp_text r))) ])
        /\ http_status (answer (test_aws g) w) = 200%Z
        /\ take 100 (resp_text r) `prefix_of` resp_text r
        /\ length (take 100 (resp_text r)) = min 100 (length (resp_text r)))
  /\ (forall e, requests_get w url 5 = Raises e ->
        answer (test_aws g) w =
          Raise (mkHTTPException 500 (lit "Network test failed: " ++ err_str e)))
  /\ ((exists v, answer (test_aws g) w = Ok v)
      \/ (exists msg, answer (test_aws g) w = Raise (mkHTTPException 500 msg))).
Proof.
  cbv zeta. unfold events, answer. rewrite run_test_aws.
  unfold endpoint_url. cbn [fst snd].
  destruct (requests_get w _ 5) as [r|e].
  - split; [reflexivity|]. split; [|split; [discriminate|left; eauto]].
    intros r' [= <-]. repeat split; [apply prefix_take|apply length_take].
  - split; [reflexivity|]. split; [discriminate|].
    split; [now intros e' [= <-]|right; eauto].
Qed.

(** ** When the configuration is read *)

(** The log of [send_email] has one of three shapes. *)
Lemma send_email_log_cases (g : Globals) (req : EmailRequest) (w : World) :
  events (send_email g req) w = [EvGetenv (lit "SOURCE_EMAIL")]
  \/ events (send_email g req) w =
       [EvGetenv (lit "SOURCE_EMAIL");
        EvResolve (domain_of (receiver_email req)) (lit "MX")]
  \/ exists src,
       source_configured w src
       /\ events (send_email g req) w =
            [EvGetenv (lit "SOURCE_EMAIL");
             EvResolve (domain_of (receiver_email req)) (lit "MX");
             EvSendEmail (ses_client g) (send_email_kwargs (Some src) req)].
Proof.
  unfold events.
  destruct (configured_or_not w) as [Hun | [src Hsrc]].
  { rewrite (run_unconfigured g req w Hun). now left. }
  destruct (blank_dec (subject req)) as [Hs|Hs];
    [|destruct (blank_dec (body_text req)) as [Hb|Hb]].
  1,2: rewrite (run_blank g req w src Hsrc ltac:(tauto)); now left.
  rewrite (run_checked g req w src Hsrc Hs Hb).
  destruct (dns_resolver_resolve w _ _); [|right; now left].
  right; right. now exists src.
Qed.

(** C9, as the code has it: the region is read from the environment once,
    when the module is imported, and the client is built with it; a
    [send_email] request reads [SOURCE_EMAIL], once, from the environment of
    the time it is handled, and no request reads the region again: the
    provider call goes through the client built at start and [test_aws] probes
    the endpoint of the region read at start. *)
Theorem configuration_read_times (w0 w : World) (req : EmailRequest) :
  exists g,
    run module_init w0 = ([EvGetenv (lit "AWS_REGION")], Ok g)
    /\ region g = region_of_env (environ w0)
    /\ region_name (ses_client g) = region_of_env (environ w0)
    /\ List.filter is_getenv (events (send_email g req) w)
       = [EvGetenv (lit "SOURCE_EMAIL")]
    /\ (forall c kwargs,
          EvSendEmail c kwargs ∈ events (send_email g req) w ->
          c = ses_client g
          /\ items_get (lit "Source") kwargs
             = Some (of_opt_str (environ w !! lit "SOURCE_EMAIL")))
    /\ events (test_aws g) w
       = [EvGet (endpoint_url (region_of_env (environ w0))) 5].
Proof.
  set (g := {| region := region_of_env (environ w0);
               ses_client := boto3_client (lit "ses") (region_of_env (environ w0)) |}).
  exists g. do 3 (split; [reflexivity|]).
  pose proof (send_email_log_cases g req w) as Hlog.
  split; [|split].
  - destruct Hlog as [-> | [-> | (src & _ & ->)]]; reflexivity.
  - intros c kwargs Hin.
    destruct Hlog as [H | [H | (src & [Hsrc _] & H)]]; rewrite H in Hin;
      rewrite !elem_of_cons, elem_of_nil in Hin;
      decompose [or] Hin; try discriminate; try contradiction.
    match goal with E : EvSendEmail _ _ = EvSendEmail _ _ |- _ =>
      injection E as -> -> end.
    rewrite Hsrc. split; reflexivity.
  - unfold events. now rewrite run_test_aws.
Qed.

(** C9, as the claim has it, fails for the region: a process started without
    [AWS_REGION] keeps probing the us-east-1 endpoint, without reading the
    environment, when a request is handled under [AWS_REGION=eu-west-1]. *)
Lemma region_is_read_at_start :
  exists g,
    run module_init (sample_world ∅ mx_found send_accepted page_found)
      = ([EvGetenv (lit "AWS_REGION")], Ok g)
    /\ region_of_env
         (environ (sample_world env_eu mx_found send_accepted page_found))
       = lit "eu-west-1"
    /\ events (test_aws g) (sample_world env_eu mx_found send_accepted page_found)
       = [EvGet (lit "https://email.us-east-1.amazonaws.com") 5]
    /\ region_name (ses_client g) = lit "us-east-1"
    /\ events (test_aws g) (sample_world env_eu mx_found send_accepted page_found)
       <> [EvGet
            (endpoint_url
               (region_of_env
                  (environ (sample_world env_eu mx_found send_accepted page_found))))
            5].
Proof. eexists. repeat split. discriminate. Qed.

(** * Further properties of the handlers *)

(** ** Every way [send_email] can end *)

Lemma send_email_run_cases (g : Globals) (req : EmailRequest) (w : World) :
  (py_not_opt (environ w !! lit "SOURCE_EMAIL") = true
   /\ answer (send_email g req) w =
        Raise (mkHTTPException 500
                 (lit "Source email not configured in environment")))
  \/ (exists src,
        source_configured w src
        /\ (blank (subject req) \/ blank (body_text req))
        /\ answer (send_email g req) w =
             Raise (mkHTTPException 400 (lit "Subject and body cannot be empty")))
  \/ (exists src,
        source_configured w src
        /\ ~ blank (subject req) /\ ~ blank (body_text req)
        /\ ~ domain_resolves w req
        /\ answer (send_email g req) w =
             Raise (mkHTTPException 400
                      (no_mx_detail (domain_of (receiver_email req)))))
  \/ (exists src sent,
        valid_request w req src
        /\ client_send_email w (ses_client g) (send_email_kwargs (Some src) req)
             = Returns sent
        /\ answer (send_email g req) w = Ok (sent_message req))
  \/ (exists src e,
        valid_request w req src
        /\ client_send_email w (ses_client g) (send_email_kwargs (Some src) req)
             = Raises e
        /\ answer (send_email g req) w
           = on_send_error (client_exceptions w (ses_client g)) e).
Proof.
  unfold answer.
  destruct (configured_or_not w) as [Hun | [src Hsrc]].
  { left. now rewrite (run_unconfigured g req w Hun). }
  right.
  destruct (blank_dec (subject req)) as [Hs|Hs];
    [|destruct (blank_dec (body_text req)) as [Hb|Hb]].
  1,2: left; exists src; rewrite (run_blank g req w src Hsrc ltac:(tauto)); tauto.
  right. rewrite (run_checked g req w src Hsrc Hs Hb).
  destruct (resolves_or_raises w req) as [[a Ha]|[e' He']].
  - right. rewrite Ha. cbn [snd].
    assert (valid_request w req src) as Hvalid.
    { repeat split; try apply Hsrc; try assumption. now exists a. }
    destruct (client_send_email w _ _) as [sent|e] eqn:Hsend.
    + left. now exists src, sent.
    + right. now exists src, e.
  - left. exists src. rewrite He'. repeat split; try apply Hsrc; try assumption.
    intros [a Ha]. congruence.
Qed.

Lemma send_email_status_in (g : Globals) (req : EmailRequest) (w : World) :
  http_status (answer (send_email g req) w) ∈ [200; 400; 401; 429; 500; 503]%Z.
Proof.
  destruct (send_email_run_cases g req w)
    as [[_ H] | [(src & _ & _ & H) | [(src & _ & _ & _ & _ & H)
       | [(src & sent & _ & _ & H) | (src & e & _ & _ & H)]]]];
    rewrite H; cbn [http_status status_code];
    rewrite !elem_of_cons; auto 10.
  pose proof (on_send_error_status (client_exceptions w (ses_client g)) e) as He.
  rewrite !elem_of_cons, elem_of_nil in He. tauto.
Qed.

(** X1: whatever the request and the world, [send_email] answers with one of
    the statuses 200, 400, 401, 429, 500 and 503, and with 200 exactly when
    the request passes the three checks and the send operation returns. *)
Theorem send_email_status_codes (g : Globals) (req : EmailRequest) (w : World) :
  http_status (answer (send_email g req) w) ∈ [200; 400; 401; 429; 500; 503]%Z
  /\ (http_status (answer (send_email g req) w) = 200%Z <->
      exists src sent,
        valid_request w req src
        /\ client_send_email w (ses_client g) (send_email_kwargs (Some src) req)
           = Returns sent).
Proof.
  split; [apply send_email_status_in|].
  split; [apply status_200_inv|].
  intros (src & sent & Hvalid & Hsend). unfold answer.
  now rewrite (run_valid g req w src Hvalid), Hsend.
Qed.

(** ** What a failure says about its cause *)

Lemma on_send_error_not_validation (exceptions : pystr -> outcome pystr)
    (e : error) (domain : pystr) :
  on_send_error exceptions e
    <> Raise (mkHTTPException 500 (lit "Source email not configured in environment"))
  /\ on_send_error exceptions e
    <> Raise (mkHTTPException 400 (lit "Subject and body cannot be empty"))
  /\ on_send_error exceptions e
    <> Raise (mkHTTPException 400 (no_mx_detail domain)).
Proof.
  unfold on_send_error.
  destruct (try_clauses_cases (A := pyval) exceptions e except_clauses
              (except_Exception e)) as [[a ->] | [(h & Hin & ->) | ->]].
  - repeat split; discriminate.
  - cbn [except_clauses fmap list_fmap snd] in Hin.
    rewrite !elem_of_cons, elem_of_nil in Hin.
    decompose [or] Hin; try contradiction; subst h;
      repeat split; intros E; vm_compute in E; discriminate E.
  - repeat split; intros E; vm_compute in E; discriminate E.
Qed.

(** X2: the exception [send_email] raises tells which stage failed.  It is
    the 500 "Source email not configured in environment" exactly when
    [SOURCE_EMAIL] is unset or empty, the 400 "Subject and body cannot be
    empty" exactly when the source is configured and the subject or the body
    is blank, the 400 naming the domain exactly when those two checks pass
    and the MX lookup raises, and an exception of the provider's [except]
    clauses exactly when the three checks pass. *)
Theorem send_email_failure_causes
    (g : Globals) (req : EmailRequest) (w : World) (h : HTTPException) :
  answer (send_email g req) w = Raise h ->
  (h = mkHTTPException 500 (lit "Source email not configured in environment")
     <-> environ w !! lit "SOURCE_EMAIL" = None
         \/ environ w !! lit "SOURCE_EMAIL" = Some [])
  /\ (h = mkHTTPException 400 (lit "Subject and body cannot be empty")
     <-> (exists src, source_configured w src)
         /\ (blank (subject req) \/ blank (body_text req)))
  /\ (h = mkHTTPException 400
            (lit "Domain '" ++ domain_of (receiver_email req)
             ++ lit "' has no MX records or cannot receive email")
     <-> (exists src, source_configured w src)
         /\ ~ blank (subject req) /\ ~ blank (body_text req)
         /\ ~ domain_resolves w req)
  /\ ((exists src e,
         client_send_email w (ses_client g) (send_email_kwargs (Some src) req)
           = Raises e
         /\ on_send_error (client_exceptions w (ses_client g)) e = Raise h)
     <-> exists src, valid_request w req src).
Proof.
  intros Hans.
  fold (no_mx_detail (domain_of (receiver_email req))).
  set (exceptions := client_exceptions w (ses_client g)).
  destruct (send_email_run_cases g req w)
    as [[Hun H] | [(src & Hsrc & Hblank & H) | [(src & Hsrc & Hs & Hb & Hres & H)
       | [(src & sent & Hvalid & Hsend & H) | (src & e & Hvalid & Hsend & H)]]]];
    rewrite H in Hans; try discriminate.
  - injection Hans as <-. apply unconfigured_iff in Hun.
    assert (forall src, ~ source_configured w src) as Hno.
    { intros src Hsrc. now apply (configured_not_unset w src Hsrc). }
    split; [tauto|]. split; [|split]; split.
    + congruence.
    + intros [[src Hsrc] _]. now apply Hno in Hsrc.
    + congruence.
    + intros [[src Hsrc] _]. now apply Hno in Hsrc.
    + intros (src & e & _ & He).
      now apply (on_send_error_not_validation exceptions e []) in He.
    + intros (src & Hsrc & _). now apply Hno in Hsrc.
  - injection Hans as <-.
    pose proof (configured_not_unset w src Hsrc) as Hset.
    split; [split; [congruence|tauto]|].
    split; [split; eauto|].
    split; split.
    + intros E. vm_compute in E. discriminate E.
    + tauto.
    + intros (src' & e & _ & He).
      now apply (on_send_error_not_validation exceptions e []) in He.
    + intros (src' & _ & Hs & Hb & _). tauto.
  - injection Hans as <-.
    pose proof (configured_not_unset w src Hsrc) as Hset.
    split; [split; [congruence|tauto]|].
    split; [split; [|tauto]|].
    { intros E. vm_compute in E. discriminate E. }
    split; [split; eauto|].
    split.
    + intros (src' & e & _ & He).
      now apply (on_send_error_not_validation exceptions e
                   (domain_of (receiver_email req))) in He.
    + intros (src' & _ & _ & _ & Hres'). contradiction.
  - pose proof Hvalid as (Hsrc & Hs & Hb & Hres).
    pose proof (configured_not_unset w src Hsrc) as Hset.
    pose proof (on_send_error_not_validation exceptions e
                  (domain_of (receiver_email req))) as (N1 & N2 & N3).
    fold exceptions in Hans.
    split; [split; [intros ->; now apply N1 in Hans|tauto]|].
    split; [split; [intros ->; now apply N2 in Hans|tauto]|].
    split; [split; [intros ->; now apply N3 in Hans|tauto]|].
    split; eauto.
Qed.

Lemma send_email_failure_causes_witness :
  (exists src,
     source_configured
       (sample_world env_configured mx_missing send_accepted page_found) src)
  /\ ~ blank (subject sample_request) /\ ~ blank (body_text sample_request)
  /\ ~ domain_resolves
        (sample_world env_configured mx_missing send_accepted page_found)
        sample_request.
Proof.
  exact (proj1 (proj1 (proj2 (proj2
    (send_email_failure_causes sample_globals sample_request
       (sample_world env_configured mx_missing send_accepted page_found)
       _ eq_refl)))) eq_refl).
Defined.


(** ** The domain check inside [send_email] *)

(** X4: once the source address and the blank checks have passed,
    [send_email] runs [validate_email_domain] on the receiver as a unit: an
    exception it raises is the answer of [send_email], unchanged, and the log
    stops after its lookup; when it returns, the provider call follows its
    lookup in the log. *)
Theorem send_email_runs_domain_check
    (g : Globals) (req : EmailRequest) (w : World) (src : pystr) :
  source_configured w src ->
  ~ blank (subject req) -> ~ blank (body_text req) ->
  (forall h, answer (validate_email_domain (receiver_email req)) w = Raise h ->
     answer (send_email g req) w = Raise h
     /\ events (send_email g req) w =
        EvGetenv (lit "SOURCE_EMAIL")
          :: events (validate_email_domain (receiver_email req)) w)
  /\ (forall b, answer (validate_email_domain (receiver_email req)) w = Ok b ->
     events (send_email g req) w =
       EvGetenv (lit "SOURCE_EMAIL")
         :: events (validate_email_domain (receiver_email req)) w
         ++ [EvSendEmail (ses_client g) (send_email_kwargs (Some src) req)]).
Proof.
  intros Hsrc Hs Hb. unfold events, answer.
  rewrite (run_checked g req w src Hsrc Hs Hb), run_validate_email_domain.
  cbn [fst snd].
  destruct (dns_resolver_resolve w _ _) as [a|e]; cbn [fst snd app];
    split; intros x Hx; try discriminate; try reflexivity.
  injection Hx as <-. now split.
Qed.

Lemma send_email_runs_domain_check_witness :
  answer (send_email sample_globals sample_request)
    (sample_world env_configured mx_missing send_accepted page_found)
  = Raise (mkHTTPException 400
             (lit "Domain 'example.org' has no MX records or cannot receive email"))
  /\ events (send_email sample_globals sample_request)
       (sample_world env_configured mx_missing send_accepted page_found)
     = [EvGetenv (lit "SOURCE_EMAIL"); EvResolve (lit "example.org") (lit "MX")].
Proof.
  refine (proj1
    (send_email_runs_domain_check sample_globals sample_request
       (sample_world env_configured mx_missing send_accepted page_found)
       (lit "noreply@example.com") _ _ _) _ eq_refl).
  - split; [reflexivity|discriminate].
  - apply strip_not_blank. reflexivity.
  - apply strip_not_blank. reflexivity.
Defined.


(** X5: [validate_email_domain] looks at nothing before the last [@]: two
    addresses with the same part after it are checked by the same single
    lookup and get the same result, whatever stands before (further [@]
    included). *)
Theorem validate_email_domain_ignores_local_part
    (p1 p2 d : pystr) (w : World) :
  at_sign ∉ d ->
  run (validate_email_domain (p1 ++ at_sign :: d)) w
  = run (validate_email_domain (p2 ++ at_sign :: d)) w
  /\ events (validate_email_domain (p1 ++ at_sign :: d)) w
     = [EvResolve d (lit "MX")].
Proof.
  intros Hd. unfold events. rewrite !run_validate_email_domain.
  now rewrite !(domain_of_after_last _ d Hd).
Qed.

Lemma validate_email_domain_ignores_local_part_witness :
  run (validate_email_domain (lit "ann@example.org"))
    (sample_world env_configured mx_missing send_accepted page_found)
  = run (validate_email_domain (lit "a@b@example.org"))
      (sample_world env_configured mx_missing send_accepted page_found)
  /\ events (validate_email_domain (lit "ann@example.org"))
       (sample_world env_configured mx_missing send_accepted page_found)
     = [EvResolve (lit "example.org") (lit "MX")].
Proof.
  apply (validate_email_domain_ignores_local_part
           (lit "ann") (lit "a@b") (lit "example.org")).
  apply (bool_decide_unpack _). vm_compute. exact I.
Defined.


(** ** [split] and [strip] *)

Lemma split_cons_sep (sep : N) (s : pystr) :
  split sep (sep :: s) = [] :: split sep s.
Proof. simpl. now rewrite N.eqb_refl. Qed.

Lemma split_app_sep (sep : N) (p rest : pystr) :
  sep ∉ p -> split sep (p ++ sep :: rest) = p :: split sep rest.
Proof.
  induction p as [|c p IH]; intros Hp; [apply split_cons_sep|].
  apply not_elem_of_cons in Hp as [Hc Hp].
  cbn [app split]. destruct (N.eqb_spec c sep) as [->|_]; [congruence|].
  now rewrite (IH Hp).
Qed.

(** X6: [split] loses nothing: joining the pieces with the separator gives
    the string back, no piece contains the separator, and there is one piece
    more than there are separators in the string. *)
Theorem split_join_round_trip (sep : N) (s : pystr) :
  join sep (split sep s) = s
  /\ Forall (fun piece => sep ∉ piece) (split sep s)
  /\ length (split sep s) = S (count_occ N.eq_dec s sep).
Proof.
  induction s as [|c s (IHjoin & IHfree & IHlen)].
  - repeat split. repeat constructor. apply not_elem_of_nil.
  - cbn [split count_occ].
    pose proof (split_not_nil sep s) as Hne.
    destruct (N.eqb_spec c sep) as [->|Hc].
    + destruct (N.eq_dec sep sep) as [_|]; [|congruence].
      split; [|split].
      * cbn [join]. destruct (split sep s); [congruence|]. now rewrite IHjoin.
      * constructor; [apply not_elem_of_nil|assumption].
      * cbn [length]. now rewrite IHlen.
    + destruct (N.eq_dec c sep) as [|_]; [congruence|].
      destruct (split sep s) as [|w ws]; [congruence|].
      apply Forall_cons in IHfree as [Hw Hws].
      split; [|split].
      * cbn [join] in *. destruct ws; now rewrite <- IHjoin.
      * constructor; [|assumption].
        apply not_elem_of_cons. split; [congruence|assumption].
      * exact IHlen.
Qed.

(** X7: conversely, a non-empty list of pieces without the separator is what
    [split] finds in their join; so an address made of a local part and a
    domain without [@] splits into these two. *)
Theorem join_split_round_trip (sep : N) (pieces : list pystr) :
  pieces <> [] ->
  Forall (fun piece => sep ∉ piece) pieces ->
  split sep (join sep pieces) = pieces.
Proof.
  intros Hne Hfree. induction Hfree as [|p rest Hp Hrest IH]; [congruence|].
  cbn [join]. destruct rest as [|q rest'].
  - now apply split_without_sep.
  - rewrite (split_app_sep sep p _ Hp). f_equal. apply IH. discriminate.
Qed.

Lemma join_split_round_trip_witness :
  split at_sign (lit "ann@example.org") = [lit "ann"; lit "example.org"].
Proof.
  apply (join_split_round_trip at_sign [lit "ann"; lit "example.org"]).
  - discriminate.
  - repeat constructor; apply (bool_decide_unpack _); vm_compute; exact I.
Defined.


Lemma lstrip_cut (s : pystr) : exists l, s = l ++ lstrip s /\ blank l.
Proof.
  induction s as [|c s (l & Hl & Hblank)].
  - exists []. split; [reflexivity|constructor].
  - simpl. destruct (isspace c) eqn:Hc.
    + exists (c :: l). split; [now rewrite <- app_comm_cons, <- Hl|].
      now constructor.
    + exists []. split; [reflexivity|constructor].
Qed.

Lemma rstrip_cut (s : pystr) : exists r, s = rstrip s ++ r /\ blank r.
Proof.
  destruct (lstrip_cut (reverse s)) as (l & Hl & Hblank).
  exists (reverse l). split.
  - unfold rstrip. rewrite <- reverse_app, <- Hl. now rewrite reverse_involutive.
  - unfold blank. now rewrite Forall_reverse.
Qed.

(** X8: [strip] removes whitespace at the two ends and nothing else: the
    string is a blank prefix, the stripped string and a blank suffix; the
    stripped string neither starts nor ends with whitespace; stripping twice
    changes nothing more. *)
Theorem strip_decomposition (s : pystr) :
  (exists l r, s = l ++ strip s ++ r /\ blank l /\ blank r)
  /\ (forall c t, strip s = c :: t -> isspace c = false)
  /\ (forall t c, strip s = t ++ [c] -> isspace c = false)
  /\ strip (strip s) = strip s.
Proof.
  destruct (lstrip_cut s) as (l & Hl & Hbl).
  destruct (rstrip_cut (lstrip s)) as (r & Hr & Hbr).
  assert (Hhead : forall c t, strip s = c :: t -> isspace c = false).
  { intros c t E. unfold strip in E. rewrite E in Hr.
    apply (lstrip_head s c (t ++ r)). now rewrite Hr. }
  assert (Hlast : forall t c, strip s = t ++ [c] -> isspace c = false).
  { intros t c E. unfold strip, rstrip in E.
    apply (f_equal reverse) in E.
    rewrite reverse_involutive, reverse_snoc in E.
    now apply lstrip_head in E. }
  split; [|split; [|split]]; try assumption.
  - exists l, r. repeat split; try assumption.
    unfold strip. now rewrite <- Hr.
  - destruct (strip s) as [|c t] eqn:E; [reflexivity|].
    assert (lstrip (c :: t) = c :: t) as Hl'.
    { simpl. now rewrite (Hhead c t eq_refl). }
    unfold strip at 1. rewrite Hl'. unfold rstrip.
    destruct (reverse (c :: t)) as [|c' t'] eqn:Erev.
    { apply (f_equal reverse) in Erev. rewrite reverse_involutive in Erev.
      discriminate. }
    assert (c :: t = reverse t' ++ [c']) as Esnoc.
    { rewrite <- reverse_cons, <- Erev. now rewrite reverse_involutive. }
    simpl. rewrite (Hlast (reverse t') c' Esnoc).
    now rewrite <- Erev, reverse_involutive.
Qed.

